(** * compare_headers.py: header comparison of paired CSV/TXT files

    A shallow embedding of [src/compare_headers.py] and the properties of
    its comparison algorithm.

    Conventions of the model.
    - A Python [str] is a [string]; a character is a code point below 256
      (the Latin-1 range), compared by code point as Python does.
    - [dict[str, Path]] is a [gmap string Path]; [set(d)] is [dom d].
    - A [Path] carries its string form, its final component and the node
      the file system holds at that place during the run: the run only
      reads the two directories, so one snapshot serves all its queries.
    - Exceptions are values of [exn]; a function that can raise returns a
      [result].  File contents are given as decoded text, and the
      reader of the model has no [csv.field_size_limit()]: a statement
      that reads the fields of a record back takes the limit as a
      hypothesis on these fields.  Permission and decoding errors, which
      end the run with a traceback, are outside the model; so are the
      errors of opening the output path, the report being modelled by
      the text written, and the parsing of the command line by
      [argparse].
    - The library functions the script calls ([str.strip], [str.lower],
      [str.join], [sorted], [PurePath.suffix], [csv.reader] and
      [csv.writer] with the default excel dialect) are modelled in
      [Module Py] after CPython. *)

From Stdlib Require Import Ascii.
From stdpp Require Import gmap strings list sorting.

#[local] Set Warnings "-register-all,-clear-no-such-hyp".

(** ** Exceptions and the result of a call that may raise *)

Inductive exn :=
| FileNotFoundError (filename : string)
| NotADirectoryError (filename : string)
| IsADirectoryError (filename : string)
| csv_Error (msg : string)
| SystemExit (code : string).

Inductive result (A : Type) :=
| Ok (a : A)
| Raise (e : exn).
Arguments Ok {A} a.
Arguments Raise {A} e.

Definition bind {A B} (m : result A) (k : A → result B) : result B :=
  match m with
  | Ok a => k a
  | Raise e => Raise e
  end.

Notation "'let*' x ':=' m 'in' k" := (bind m (λ x, k))
  (at level 10, x name, m at level 100, k at level 200,
   format "'[v' 'let*'  x  ':='  m  'in'  '/' k ']'").

(** ** Python built-ins and library functions *)

Module Py.

(** The characters the script and the csv dialect name. *)
Definition LF : ascii := "010"%char.
Definition CR : ascii := "013"%char.
Definition QUOTE : ascii := "034"%char.
Definition APOSTROPHE : ascii := "039"%char.
Definition COMMA : ascii := ","%char.
Definition DOT : ascii := "."%char.

Definition str1 (c : ascii) : string := String c EmptyString.

(** [str.isspace] on one character: U+0009..U+000D, U+001C..U+0020,
    U+0085 and U+00A0. *)
Definition isspace (c : ascii) : bool :=
  let n := nat_of_ascii c in
  ((9 <=? n) && (n <=? 13)) || ((28 <=? n) && (n <=? 32))
  || (n =? 133) || (n =? 160).

Fixpoint lstrip (s : string) : string :=
  match s with
  | EmptyString => EmptyString
  | String c s' => if isspace c then lstrip s' else s
  end.

Fixpoint rstrip (s : string) : string :=
  match s with
  | EmptyString => EmptyString
  | String c s' =>
      match rstrip s' with
      | EmptyString => if isspace c then EmptyString else str1 c
      | r => String c r
      end
  end.

(** [s.strip()] *)
Definition strip (s : string) : string := rstrip (lstrip s).

(** [str.lower] on one character: A-Z and the cased letters of
    U+00C0..U+00DE (U+00D7 is the multiplication sign). *)
Definition lower_char (c : ascii) : ascii :=
  let n := nat_of_ascii c in
  if ((65 <=? n) && (n <=? 90))
     || ((192 <=? n) && (n <=? 222) && negb (n =? 215))
  then ascii_of_nat (n + 32) else c.

(** [s.lower()] *)
Fixpoint lower (s : string) : string :=
  match s with
  | EmptyString => EmptyString
  | String c s' => String (lower_char c) (lower s')
  end.

(** [sep.join(parts)] *)
Fixpoint join (sep : string) (parts : list string) : string :=
  match parts with
  | [] => EmptyString
  | [x] => x
  | x :: rest => x +:+ sep +:+ join sep rest
  end.

(** [sorted(xs)] on strings: ascending by code point. *)
Definition sorted (xs : list string) : list string := merge_sort String.le xs.

(** [name.rfind('.')], [None] standing for -1. *)
Fixpoint rfind_dot (s : string) : option nat :=
  match s with
  | EmptyString => None
  | String c s' =>
      match rfind_dot s' with
      | Some i => Some (S i)
      | None => if decide (c = DOT) then Some 0 else None
      end
  end.

(** [s[i:]] *)
Fixpoint drop_str (i : nat) (s : string) : string :=
  match i, s with
  | 0, _ => s
  | S i', String _ s' => drop_str i' s'
  | S _, EmptyString => EmptyString
  end.

(** [PurePath.suffix] of a final component (pathlib up to Python 3.13):
    [i = name.rfind('.')]; [name[i:]] when [0 < i < len(name) - 1],
    else the empty string. *)
Definition suffix (name : string) : string :=
  match rfind_dot name with
  | Some i =>
      if (0 <? i) && (i <? String.length name - 1) then drop_str i name
      else EmptyString
  | None => EmptyString
  end.

(** *** Text files opened with [newline=""]

    Iterating the handle yields the lines of the text, each with its
    terminator, a line ending at LF, at CR LF or at a lone CR. *)
Fixpoint readlines (s : string) : list string :=
  match s with
  | EmptyString => []
  | String c rest =>
      if decide (c = LF) then str1 LF :: readlines rest
      else if decide (c = CR) then
        match rest with
        | String c' rest' =>
            if decide (c' = LF) then String CR (str1 LF) :: readlines rest'
            else str1 CR :: readlines rest
        | EmptyString => [str1 CR]
        end
      else
        match readlines rest with
        | [] => [str1 c]
        | line :: lines => String c line :: lines
        end
  end.

(** *** [csv.reader], excel dialect

    delimiter [,], quotechar the double quote, doublequote on,
    no escapechar, skipinitialspace off, strict off.  The states are those
    of [Modules/_csv.c] that this dialect can reach. *)
Inductive ParserState :=
| START_RECORD | START_FIELD | IN_FIELD | IN_QUOTED_FIELD
| QUOTE_IN_QUOTED_FIELD | EAT_CRNL.

#[global] Instance ParserState_eq_dec : EqDecision ParserState.
Proof. solve_decision. Defined.

Record ReaderObj := mkReader {
  state : ParserState;
  fields : list string;   (* the fields of the record so far *)
  field : string          (* the field being read *)
}.

(** [parse_reset] *)
Definition parse_reset : ReaderObj := mkReader START_RECORD [] EmptyString.

(** [parse_save_field] *)
Definition parse_save_field (self : ReaderObj) : ReaderObj :=
  mkReader (state self) (fields self ++ [field self]) EmptyString.

(** [parse_add_char] *)
Definition parse_add_char (self : ReaderObj) (c : ascii) : ReaderObj :=
  mkReader (state self) (fields self) (field self +:+ str1 c).

Definition set_state (self : ReaderObj) (st : ParserState) : ReaderObj :=
  mkReader st (fields self) (field self).

Definition is_newline (c : ascii) : bool :=
  bool_decide (c = LF) || bool_decide (c = CR).

Definition start_field (self : ReaderObj) (c : option ascii) : ReaderObj :=
  match c with
  | None => set_state (parse_save_field self) START_RECORD
  | Some ch =>
      if is_newline ch then set_state (parse_save_field self) EAT_CRNL
      else if decide (ch = QUOTE) then set_state self IN_QUOTED_FIELD
      else if decide (ch = COMMA) then parse_save_field self
      else set_state (parse_add_char self ch) IN_FIELD
  end.

(** [parse_process_char]; [None] is the end-of-line marker the reader
    feeds after the last character of each line. *)
Definition parse_process_char (self : ReaderObj) (c : option ascii)
  : result ReaderObj :=
  match state self with
  | START_RECORD =>
      match c with
      | None => Ok self
      | Some ch =>
          if is_newline ch then Ok (set_state self EAT_CRNL)
          else Ok (start_field (set_state self START_FIELD) c)
      end
  | START_FIELD => Ok (start_field self c)
  | IN_FIELD =>
      match c with
      | None => Ok (set_state (parse_save_field self) START_RECORD)
      | Some ch =>
          if is_newline ch then Ok (set_state (parse_save_field self) EAT_CRNL)
          else if decide (ch = COMMA)
          then Ok (set_state (parse_save_field self) START_FIELD)
          else Ok (parse_add_char self ch)
      end
  | IN_QUOTED_FIELD =>
      match c with
      | None => Ok self
      | Some ch =>
          if decide (ch = QUOTE) then Ok (set_state self QUOTE_IN_QUOTED_FIELD)
          else Ok (parse_add_char self ch)
      end
  | QUOTE_IN_QUOTED_FIELD =>
      match c with
      | None => Ok (set_state (parse_save_field self) START_RECORD)
      | Some ch =>
          if decide (ch = QUOTE)
          then Ok (set_state (parse_add_char self ch) IN_QUOTED_FIELD)
          else if decide (ch = COMMA)
          then Ok (set_state (parse_save_field self) START_FIELD)
          else if is_newline ch
          then Ok (set_state (parse_save_field self) EAT_CRNL)
          else Ok (set_state (parse_add_char self ch) IN_FIELD)
      end
  | EAT_CRNL =>
      match c with
      | None => Ok (set_state self START_RECORD)
      | Some ch =>
          if is_newline ch then Ok self
          else Raise (csv_Error "new-line character seen in unquoted field")
      end
  end.

(** The characters of one line, fed in turn. *)
Fixpoint parse_line (self : ReaderObj) (line : string) : result ReaderObj :=
  match line with
  | EmptyString => Ok self
  | String c rest =>
      let* self := parse_process_char self (Some c) in
      parse_line self rest
  end.

(** [Reader_iternext]: [Ok None] is [StopIteration]. *)
Fixpoint reader_loop (self : ReaderObj) (lines : list string)
  : result (option (list string)) :=
  match lines with
  | [] =>
      if negb (bool_decide (field self = EmptyString))
         || bool_decide (state self = IN_QUOTED_FIELD)
      then Ok (Some (fields (parse_save_field self)))
      else Ok None
  | line :: lines' =>
      let* self := parse_line self line in
      let* self := parse_process_char self None in
      if decide (state self = START_RECORD) then Ok (Some (fields self))
      else reader_loop self lines'
  end.

(** [next(csv.reader(handle))] on a handle at the start of [text]. *)
Definition reader_next (text : string) : result (option (list string)) :=
  reader_loop parse_reset (readlines text).

(** *** [csv.writer], excel dialect

    QUOTE_MINIMAL: a field is quoted when it holds the delimiter, the
    quotechar or a character of the line terminator; a quotechar inside
    is doubled.  Rows end with CR LF. *)
Definition needs_quoting (c : ascii) : bool :=
  bool_decide (c = COMMA) || bool_decide (c = QUOTE) || is_newline c.

Fixpoint any_char (p : ascii → bool) (s : string) : bool :=
  match s with
  | EmptyString => false
  | String c s' => p c || any_char p s'
  end.

Fixpoint double_quotes (s : string) : string :=
  match s with
  | EmptyString => EmptyString
  | String c s' =>
      if decide (c = QUOTE) then String QUOTE (String QUOTE (double_quotes s'))
      else String c (double_quotes s')
  end.

Definition csv_field (s : string) : string :=
  if any_char needs_quoting s
  then str1 QUOTE +:+ double_quotes s +:+ str1 QUOTE
  else s.

(** [writer.writerow(row)] for a row of at least two fields: the text
    appended to the file. *)
Definition writerow (row : list string) : string :=
  join (str1 COMMA) (csv_field <$> row) +:+ String CR (str1 LF).

End Py.

(** ** The file system as the run sees it *)

Inductive node :=
| File (text : string)                      (* regular file, decoded *)
| Dir (children : list (string * node))     (* entries as enumerated *)
| Symlink (target : option node).           (* [None]: dangling *)

(** What [os.stat] finds after following symbolic links. *)
Fixpoint stat (n : node) : option node :=
  match n with
  | Symlink None => None
  | Symlink (Some t) => stat t
  | _ => Some n
  end.

Record Path := mkPath {
  path_str : string;          (* [str(path)] *)
  name : string;              (* [path.name] *)
  path_node : option node     (* the node at this path, if any *)
}.

(** [path.is_file()]: a regular file, or a symbolic link to one. *)
Definition is_file (path : Path) : bool :=
  match path_node path ≫= stat with
  | Some (File _) => true
  | _ => false
  end.

(** [path.is_dir()] *)
Definition is_dir (path : Path) : bool :=
  match path_node path ≫= stat with
  | Some (Dir _) => true
  | _ => false
  end.


(** The string ends with a slash: the string of a root. *)
Fixpoint ends_with_slash (s : string) : bool :=
  match s with
  | EmptyString => false
  | String c EmptyString => bool_decide (c = "/"%char)
  | String _ s' => ends_with_slash s'
  end.

(** [directory / entry]: the name alone under the current directory,
    the name after the string of a root, else a slash between the two. *)
Definition joinpath (directory : Path) (entry : string * node) : Path :=
  mkPath
    (if decide (path_str directory = ".") then entry.1
     else if ends_with_slash (path_str directory)
     then path_str directory +:+ entry.1
     else path_str directory +:+ "/" +:+ entry.1)
    entry.1 (Some entry.2).

(** [directory.iterdir()], in the order the file system enumerates. *)
Definition iterdir (directory : Path) : result (list Path) :=
  match path_node directory ≫= stat with
  | Some (Dir children) => Ok (joinpath directory <$> children)
  | Some _ => Raise (NotADirectoryError (path_str directory))
  | None => Raise (FileNotFoundError (path_str directory))
  end.

(** [file_path.open(newline="", encoding="utf-8")], read to the end. *)
Definition open_text (file_path : Path) : result string :=
  match path_node file_path ≫= stat with
  | Some (File text) => Ok text
  | Some _ => Raise (IsADirectoryError (path_str file_path))
  | None => Raise (FileNotFoundError (path_str file_path))
  end.

(** ** The script *)

Definition VALID_EXTENSIONS : gset string := {[ ".csv"; ".txt" ]}.

Record ComparisonResult := mkResult {
  filename : string;
  status : string;
  details : string
}.

#[global] Instance ComparisonResult_eq_dec : EqDecision ComparisonResult.
Proof. solve_decision. Defined.

(** [read_headers] *)
Definition read_headers (file_path : Path) : result (list string) :=
  let* handle := open_text file_path in
  let* headers := Py.reader_next handle in
  match headers with
  | None => Ok []                       (* except StopIteration *)
  | Some headers => Ok (Py.strip <$> headers)
  end.

(** [find_files] *)
Definition find_files (directory : Path) : result (gmap string Path) :=
  let* paths := iterdir directory in
  Ok (foldl (λ (files : gmap string Path) path,
        if is_file path
           && bool_decide (Py.lower (Py.suffix (name path)) ∈ VALID_EXTENSIONS)
        then <[name path := path]> files
        else files) ∅ paths).

Definition quoted (header : string) : string :=
  Py.str1 Py.APOSTROPHE +:+ header +:+ Py.str1 Py.APOSTROPHE.

(** The body of the loop of [compare_headers]: the result it appends for
    [filename]. *)
Definition compare_file (dir1 dir2 : Path)
    (dir1_files dir2_files : gmap string Path) (filename : string)
  : result ComparisonResult :=
  match dir1_files !! filename with
  | None =>
      Ok (mkResult filename "missing"
            (filename +:+ " not found in " +:+ path_str dir1))
  | Some file1 =>
      match dir2_files !! filename with
      | None =>
          Ok (mkResult filename "missing"
                (filename +:+ " not found in " +:+ path_str dir2))
      | Some file2 =>
          let* headers1 := read_headers file1 in
          let* headers2 := read_headers file2 in
          let missing_in_dir2 := filter (λ header, header ∉ headers2) headers1 in
          let missing_in_dir1 := filter (λ header, header ∉ headers1) headers2 in
          if bool_decide (missing_in_dir1 = []) && bool_decide (missing_in_dir2 = [])
          then Ok (mkResult filename "match" EmptyString)
          else
            let message_parts := [] in
            let message_parts :=
              if bool_decide (missing_in_dir2 ≠ [])
              then message_parts ++
                   ["Dir1 headers missing in Dir2: "
                    +:+ Py.join ", " (quoted <$> missing_in_dir2)]
              else message_parts in
            let message_parts :=
              if bool_decide (missing_in_dir1 ≠ [])
              then message_parts ++
                   ["Dir2 headers missing in Dir1: "
                    +:+ Py.join ", " (quoted <$> missing_in_dir1)]
              else message_parts in
            Ok (mkResult filename "mismatch" (Py.join "; " message_parts))
      end
  end.

(** The loop of [compare_headers] over [all_filenames], appending to
    [results]. *)
Fixpoint compare_loop (dir1 dir2 : Path)
    (dir1_files dir2_files : gmap string Path)
    (all_filenames : list string) (results : list ComparisonResult)
  : result (list ComparisonResult) :=
  match all_filenames with
  | [] => Ok results
  | filename :: rest =>
      let* r := compare_file dir1 dir2 dir1_files dir2_files filename in
      compare_loop dir1 dir2 dir1_files dir2_files rest (results ++ [r])
  end.

(** [compare_headers] *)
Definition compare_headers (dir1 dir2 : Path)
  : result (list ComparisonResult) :=
  let* dir1_files := find_files dir1 in
  let* dir2_files := find_files dir2 in
  let all_filenames :=
    Py.sorted (elements (dom dir1_files ∪ dom dir2_files)) in
  compare_loop dir1 dir2 dir1_files dir2_files all_filenames [].

(** [write_report]: the text written to [output_path]. *)
Definition write_report (results : list ComparisonResult) (output_path : Path)
  : Path * string :=
  (output_path,
   foldl (λ handle r,
            handle +:+ Py.writerow [filename r; status r; details r])
         (Py.writerow ["filename"; "status"; "details"]) results).

(** The parsed command line ([parse_args]). *)
Record Namespace := mkArgs { dir1 : Path; dir2 : Path; output : Path }.

(** [main], after [parse_args]: the report it writes, or the exception
    that ends the process. *)
Definition main (args : Namespace) : result (Path * string) :=
  if negb (is_dir (dir1 args))
  then Raise (SystemExit ("Directory not found: " +:+ path_str (dir1 args)))
  else if negb (is_dir (dir2 args))
  then Raise (SystemExit ("Directory not found: " +:+ path_str (dir2 args)))
  else
    let* results := compare_headers (dir1 args) (dir2 args) in
    Ok (write_report results (output args)).

(** The exit status of the interpreter: 0 when [main] returns, 1 when an
    exception escapes it or [SystemExit] carries a message. *)
Definition exit_status {A} (outcome : result A) : nat :=
  match outcome with
  | Ok _ => 0
  | Raise _ => 1
  end.

(** What the interpreter prints on exit when [SystemExit] carries a
    string; the traceback of another exception is not modelled. *)
Definition exit_message (e : exn) : option string :=
  match e with
  | SystemExit code => Some code
  | _ => None
  end.

(** The [filename] attribute of an [OSError]. *)
Definition exn_filename (e : exn) : option string :=
  match e with
  | FileNotFoundError f | NotADirectoryError f | IsADirectoryError f => Some f
  | _ => None
  end.

(** ** Vocabulary of the statements *)

(** Line terminators only. *)
Fixpoint all_newline (s : string) : bool :=
  match s with
  | EmptyString => true
  | String c s' => Py.is_newline c && all_newline s'
  end.

(** A line as the text handle yields it: no character follows the
    terminator. *)
Fixpoint line_ok (s : string) : bool :=
  match s with
  | EmptyString => true
  | String c s' => if Py.is_newline c then all_newline s' else line_ok s'
  end.

(** The test [find_files] applies to each path of the listing. *)
Definition qualifies (path : Path) : bool :=
  is_file path
  && bool_decide (Py.lower (Py.suffix (name path)) ∈ VALID_EXTENSIONS).

(** One turn of the loop of [find_files]. *)
Definition add_file (files : gmap string Path) (path : Path)
  : gmap string Path :=
  if qualifies path then <[name path := path]> files else files.

(** The entries of a directory, in enumeration order; none when the
    path is not a directory. *)
Definition entries (directory : Path) : list (string * node) :=
  match path_node directory ≫= stat with
  | Some (Dir children) => children
  | _ => []
  end.

(** [r] is the one result of [results] for [f]. *)
Definition result_for (results : list ComparisonResult) (f : string)
    (r : ComparisonResult) : Prop :=
  r ∈ results ∧ filename r = f
  ∧ ∀ r', r' ∈ results → filename r' = f → r' = r.

(** The two header rows hold the same set of strings. *)
Definition same_header_set (headers1 headers2 : list string) : Prop :=
  list_to_set headers1 =@{gset string} list_to_set headers2.

#[global] Instance same_header_set_dec headers1 headers2 :
  Decision (same_header_set headers1 headers2).
Proof. unfold same_header_set. apply _. Defined.

(** The members of [headers] that are not members of [others], in the
    order and with the repetitions of [headers]. *)
Definition difference_list (headers others : list string) : list string :=
  filter (λ header, header ∉ others) headers.

(** The details of a mismatch in the words of the specification: a
    clause per direction, left out when nothing is missing there. *)
Definition clause (label : string) (missing : list string) : list string :=
  match missing with
  | [] => []
  | _ => [label +:+ Py.join ", " (quoted <$> missing)]
  end.

Definition mismatch_details (headers1 headers2 : list string) : string :=
  Py.join "; "
    (clause "Dir1 headers missing in Dir2: "
       (difference_list headers1 headers2)
     ++ clause "Dir2 headers missing in Dir1: "
       (difference_list headers2 headers1)).

(** [sub] occurs in [s]. *)
Definition contains (sub s : string) : Prop :=
  ∃ pre post, s = pre +:+ sub +:+ post.



(** The error the specification calls DirectoryNotFoundError: what
    listing a path that is no directory raises. *)
Definition DirectoryNotFoundError (e : exn) : Prop :=
  ∃ f, e = FileNotFoundError f ∨ e = NotADirectoryError f.

(** The suffix of [f] is one of the valid extensions, letter case
    aside. *)
Definition has_valid_extension (f : string) : Prop :=
  Py.lower (Py.suffix f) ∈ VALID_EXTENSIONS.



(** The index of [directory] as the specification words it: the names
    of its regular files with a valid extension, and nothing else. *)
Definition regular_files_only (directory : Path) (files : gmap string Path)
  : Prop :=
  ∀ f, f ∈ dom files
       ↔ ∃ text, (f, File text) ∈ entries directory ∧ has_valid_extension f.

(** ** Two sample directories *)

Module Sample.

Definition nl : string := Py.str1 Py.LF.

Definition dir1 : Path :=
  mkPath "data/old" "old" (Some (Dir [
    ("b.csv", File ("id,name,age" +:+ nl +:+ "1,Ann,30" +:+ nl));
    ("a.csv", File ("id,name" +:+ nl +:+ "1,Ann" +:+ nl));
    ("c.txt", File ("key" +:+ nl));
    ("empty.CSV", File EmptyString);
    ("notes.json", File "{}");
    ("sub", Dir [("deep.csv", File ("id" +:+ nl))]);
    ("link.csv", Symlink (Some (File ("p, q" +:+ nl))));
    ("dangling.csv", Symlink None)
  ])).

Definition dir2 : Path :=
  mkPath "data/new" "new" (Some (Dir [
    ("link.csv", File ("q,r,r" +:+ nl));
    ("a.csv", File (" name ,id" +:+ nl +:+ "Ann,1" +:+ nl));
    ("empty.CSV", File EmptyString);
    ("notes.json", File "[]");
    ("b.csv", File ("id,name" +:+ nl))
  ])).

(** [dir1] as another enumeration would list it. *)
Definition dir1' : Path :=
  mkPath "data/old" "old" (Some (Dir (reverse (entries dir1)))).

Definition no_such_dir : Path := mkPath "data/gone" "gone" None.

Definition output : Path := mkPath "header_comparison.csv" "header_comparison.csv" None.

Definition file (directory : Path) (f : string) (text : string) : Path :=
  joinpath directory (f, File text).

End Sample.

(** ** Further vocabulary *)


(** The row [write_report] writes for a result. *)
Definition report_row (r : ComparisonResult) : list string :=
  [filename r; status r; details r].

Module Sample2.

(** A file whose first line is blank. *)
Definition blank_first : Path :=
  Sample.file Sample.dir1 "blank.csv" (Sample.nl +:+ "id,name" +:+ Sample.nl).

End Sample2.

(** A field the csv writer leaves unquoted: no delimiter, quote or line
    terminator in it. *)
Definition plain (s : string) : bool := negb (Py.any_char Py.needs_quoting s).

(** The reader about to start a field, with the fields [fs] saved. *)
Definition fresh (fs : list string) : Py.ReaderObj :=
  Py.mkReader Py.START_FIELD fs EmptyString.

(** The reader fed the characters of [body] one by one, as long as no
    line ends outside a quoted field; [None] otherwise. *)
Fixpoint feed (self : Py.ReaderObj) (body : string) : option Py.ReaderObj :=
  match body with
  | EmptyString => Some self
  | String c b =>
      if negb (Py.is_newline c)
         || bool_decide (Py.state self = Py.IN_QUOTED_FIELD)
      then match Py.parse_process_char self (Some c) with
           | Ok s => feed s b
           | Raise _ => None
           end
      else None
  end.

(** The reader holds the fields [fs] and, not yet saved, the field [f]
    whose last character it has read. *)
Definition pending (s : Py.ReaderObj) (fs : list string) (f : string) : Prop :=
  Py.fields s = fs ∧ Py.field s = f
  ∧ ((Py.state s = Py.START_FIELD ∧ f = EmptyString)
     ∨ Py.state s = Py.IN_FIELD
     ∨ Py.state s = Py.QUOTE_IN_QUOTED_FIELD).

(** The rows [write_report] appends after the header row. *)
Definition report_rows (results : list ComparisonResult) : string :=
  foldr (λ r text, Py.writerow (report_row r) +:+ text) EmptyString results.

Module Sample3.

Definition results : list ComparisonResult :=
  [ mkResult "a.csv" "match" EmptyString;
    mkResult "b, old.csv" "mismatch" "Dir1 headers missing in Dir2: 'age', 'zip'" ].

(** The report of [results], found again as a file. *)
Definition report_file : Path :=
  mkPath "data/old/header_comparison.csv" "header_comparison.csv"
    (Some (File (write_report results Sample.output).2)).

End Sample3.

Module Sample4.

Definition without_notes : Path :=
  mkPath "data/old" "old" (Some (Dir [
    ("a.csv", File ("id,name" +:+ Sample.nl));
    ("c.txt", File ("key" +:+ Sample.nl))
  ])).

Definition with_notes : Path :=
  mkPath "data/old" "old" (Some (Dir [
    ("a.csv", File ("id,name" +:+ Sample.nl));
    ("notes.json", File "{}");
    ("c.txt", File ("key" +:+ Sample.nl))
  ])).

End Sample4.

(** ** The texts of the specification, written out *)




(** [csv.field_size_limit()]: the longest field the reader accepts. *)
Definition field_size_limit : Z := 131072.

Definition within_field_limit (s : string) : Prop :=
  (Z.of_nat (String.length s) ≤ field_size_limit)%Z.




Module Sample5.



End Sample5.

(** * Properties *)

(** ** The csv reader on the lines of a text *)

Section reader.
Import Py.

Lemma readlines_nil text : readlines text = [] ↔ text = EmptyString.
Proof.
  split; [|by intros ->].
  destruct text as [|c rest]; [done|]. simpl.
  destruct (decide (c = LF)); [done|].
  destruct (decide (c = CR)).
  - destruct rest as [|c' rest']; [done|]. by destruct (decide (c' = LF)).
  - by destruct (readlines rest).
Qed.

Lemma readlines_line_ok text : Forall (λ l, line_ok l = true) (readlines text).
Proof.
  remember (String.length text) as n eqn:Hn.
  revert text Hn. induction (lt_wf n) as [n _ IH]. intros text ->.
  destruct text as [|c rest]; [constructor|]. simpl.
  destruct (decide (c = LF)) as [->|HLF].
  { constructor; [done|]. eapply IH; [|done]. simpl; lia. }
  destruct (decide (c = CR)) as [->|HCR].
  { destruct rest as [|c' rest']; [by repeat constructor|].
    destruct (decide (c' = LF)) as [->|?].
    - constructor; [done|]. eapply IH; [|done]. simpl; lia.
    - constructor; [done|]. eapply IH; [|done]. simpl; lia. }
  assert (is_newline c = false) as Hc.
  { unfold is_newline. by rewrite !bool_decide_eq_false_2. }
  assert (Forall (λ l, line_ok l = true) (readlines rest)) as Hrest.
  { eapply IH; [|done]. simpl; lia. }
  destruct (readlines rest) as [|line lines].
  - repeat constructor. simpl. by rewrite Hc.
  - inv Hrest. constructor; [|done]. simpl. by rewrite Hc.
Qed.

Lemma parse_newline_ok self c :
  is_newline c = true → ∃ self', parse_process_char self (Some c) = Ok self'.
Proof.
  intros Hc. unfold parse_process_char, start_field.
  destruct (state self); rewrite ?Hc; eauto.
  - destruct (decide (c = QUOTE)); eauto.
  - destruct (decide (c = QUOTE)) as [->|]; [done|].
    destruct (decide (c = COMMA)) as [->|]; [done|]. eauto.
Qed.

Lemma parse_char_ok self c :
  is_newline c = false → state self ≠ EAT_CRNL →
  ∃ self', parse_process_char self (Some c) = Ok self'
           ∧ state self' ≠ EAT_CRNL.
Proof.
  intros Hc Hst. unfold parse_process_char, start_field.
  destruct (state self) eqn:E; try done; simpl; rewrite ?Hc;
    repeat case_decide; eexists; (split; [done|]); simpl; congruence.
Qed.

Lemma parse_eol_ok self :
  ∃ self', parse_process_char self None = Ok self'
           ∧ (state self' = START_RECORD ∨ state self' = IN_QUOTED_FIELD).
Proof.
  unfold parse_process_char, start_field.
  destruct (state self) eqn:E; eexists; (split; [done|]); simpl; auto.
Qed.

Lemma parse_line_newlines line self :
  all_newline line = true → ∃ self', parse_line self line = Ok self'.
Proof.
  revert self. induction line as [|c line IH]; intros self Hl; simpl; [eauto|].
  simpl in Hl. apply andb_true_iff in Hl as [Hc Hl].
  destruct (parse_newline_ok self c Hc) as [self1 ->]. simpl. eauto.
Qed.

Lemma parse_line_ok line self :
  line_ok line = true → state self ≠ EAT_CRNL →
  ∃ self', parse_line self line = Ok self'.
Proof.
  revert self. induction line as [|c line IH]; intros self Hl Hst; simpl;
    [eauto|].
  simpl in Hl. destruct (is_newline c) eqn:Hc.
  - destruct (parse_newline_ok self c Hc) as [self1 ->]. simpl.
    by apply parse_line_newlines.
  - destruct (parse_char_ok self c Hc Hst) as (self1 & -> & Hst1). simpl.
    by apply IH.
Qed.

Lemma reader_loop_ok lines self :
  Forall (λ l, line_ok l = true) lines →
  state self = START_RECORD ∨ state self = IN_QUOTED_FIELD →
  ∃ r, reader_loop self lines = Ok r
       ∧ (lines ≠ [] ∨ state self = IN_QUOTED_FIELD → is_Some r).
Proof.
  intros Hlines. revert self.
  induction Hlines as [|line lines Hline _ IH]; intros self Hst; simpl.
  - destruct (state self) eqn:E; try (by destruct Hst);
      destruct (bool_decide (field self = EmptyString)); simpl;
      eexists; (split; [done|]); intros [?|?]; done || eauto.
  - destruct (parse_line_ok line self Hline) as [self1 ->].
    { destruct Hst as [-> | ->]; done. }
    simpl. destruct (parse_eol_ok self1) as (self2 & -> & Hst2). simpl.
    destruct (decide (state self2 = START_RECORD)) as [|Hne]; [by eauto|].
    destruct Hst2 as [?|Hq]; [done|].
    destruct (IH self2) as (r & -> & Hr); [by auto|].
    eexists; split; [done|]. auto.
Qed.

(** The reader raises no [csv.Error] on a text opened with [newline=""];
    it stops without a record exactly on the empty text. *)
Lemma reader_next_ok text :
  ∃ r, reader_next text = Ok r
       ∧ (text = EmptyString → r = None)
       ∧ (text ≠ EmptyString → is_Some r).
Proof.
  unfold reader_next.
  destruct (reader_loop_ok (readlines text) parse_reset) as (r & Hr & Hsome).
  { apply readlines_line_ok. }
  { by left. }
  exists r. split; [done|]. split.
  - intros ->. simpl in Hr. by injection Hr as <-.
  - intros Hne. apply Hsome. left. by rewrite readlines_nil.
Qed.

End reader.

(** ** The file index *)

Section index.

Lemma find_files_unfold directory :
  find_files directory =
  let* paths := iterdir directory in Ok (foldl add_file ∅ paths).
Proof. done. Qed.

Lemma iterdir_entries directory :
  is_dir directory = true →
  iterdir directory = Ok (joinpath directory <$> entries directory).
Proof.
  unfold is_dir, iterdir, entries.
  by destruct (path_node directory ≫= stat) as [[]|].
Qed.

Lemma iterdir_not_dir directory :
  is_dir directory = false →
  iterdir directory = Raise (FileNotFoundError (path_str directory))
  ∨ iterdir directory = Raise (NotADirectoryError (path_str directory)).
Proof.
  unfold is_dir, iterdir.
  destruct (path_node directory ≫= stat) as [[]|]; auto; done.
Qed.

Lemma find_files_is_dir directory :
  is_dir directory = true →
  find_files directory =
  Ok (foldl add_file ∅ (joinpath directory <$> entries directory)).
Proof. intros H. by rewrite find_files_unfold, iterdir_entries. Qed.

Lemma find_files_Ok directory files :
  find_files directory = Ok files →
  is_dir directory = true
  ∧ files = foldl add_file ∅ (joinpath directory <$> entries directory).
Proof.
  intros H. destruct (is_dir directory) eqn:Hd.
  - rewrite find_files_is_dir in H by done. by injection H as <-.
  - rewrite find_files_unfold in H.
    destruct (iterdir_not_dir _ Hd) as [E|E]; by rewrite E in H.
Qed.

Lemma add_lookup_inv paths acc f p :
  foldl add_file acc paths !! f = Some p →
  acc !! f = Some p ∨ (p ∈ paths ∧ name p = f ∧ qualifies p = true).
Proof.
  revert acc. induction paths as [|q paths IH]; intros acc H; simpl in *;
    [by left|].
  apply IH in H as [H|(?&?&?)]; [|right; by rewrite elem_of_cons; auto].
  unfold add_file in H. destruct (qualifies q) eqn:Hq; [|by left].
  rewrite lookup_insert in H. case_decide; [|by left].
  simplify_eq. right. by rewrite elem_of_cons; auto.
Qed.



Lemma add_dom paths acc f :
  f ∈ dom (foldl add_file acc paths) ↔
  f ∈ dom acc ∨ ∃ p, p ∈ paths ∧ name p = f ∧ qualifies p = true.
Proof.
  revert acc. induction paths as [|q paths IH]; intros acc; simpl.
  { split; [by left|]. intros [?|(p&Hp&_)]; [done|by inv Hp]. }
  rewrite IH. unfold add_file. split.
  - intros [H|(p&?&?&?)]; [|right; exists p; by rewrite elem_of_cons; auto].
    destruct (qualifies q) eqn:Hq; [|by left].
    apply elem_of_dom in H. rewrite lookup_insert in H. case_decide.
    + right. exists q. by rewrite elem_of_cons; auto.
    + left. by apply elem_of_dom.
  - intros [H|(p&Hp&Hn&Hq)].
    + left. destruct (qualifies q); [|done].
      rewrite dom_insert, elem_of_union. by right.
    + apply elem_of_cons in Hp as [->|Hp]; [|right; eauto].
      left. rewrite Hq, dom_insert, Hn, elem_of_union, elem_of_singleton.
      by left.
Qed.

(** Every value of the index is a qualifying path of the listing, filed
    under its own name. *)
Lemma find_files_lookup_Some directory files f p :
  find_files directory = Ok files → files !! f = Some p →
  ∃ nd, (f, nd) ∈ entries directory ∧ p = joinpath directory (f, nd)
        ∧ qualifies p = true.
Proof.
  intros [_ ->]%find_files_Ok H.
  apply add_lookup_inv in H as [H|(Hin & Hn & Hq)]; [done|].
  apply list_elem_of_fmap in Hin as ([f' nd] & -> & Hin). simpl in Hn.
  subst f'. eauto.
Qed.

Lemma find_files_dom directory files f :
  find_files directory = Ok files →
  f ∈ dom files ↔
  ∃ nd, (f, nd) ∈ entries directory
        ∧ qualifies (joinpath directory (f, nd)) = true.
Proof.
  intros [_ ->]%find_files_Ok. rewrite add_dom, dom_empty. split.
  - intros [?|(p & Hin & Hn & Hq)]; [set_solver|].
    apply list_elem_of_fmap in Hin as ([f' nd] & -> & Hin). simpl in Hn.
    subst f'. eauto.
  - intros (nd & Hin & Hq). right. exists (joinpath directory (f, nd)).
    split; [by apply list_elem_of_fmap_2|done].
Qed.


End index.

(** ** The comparison loop *)

Section comparison.

Lemma is_file_open_text path :
  is_file path = true → ∃ text, open_text path = Ok text.
Proof.
  unfold is_file, open_text.
  destruct (path_node path ≫= stat) as [[]|]; by eauto.
Qed.

Lemma read_headers_open file_path text :
  open_text file_path = Ok text →
  read_headers file_path =
  let* headers := Py.reader_next text in
  match headers with
  | None => Ok []
  | Some headers => Ok (Py.strip <$> headers)
  end.
Proof. unfold read_headers. by intros ->. Qed.

(** [read_headers] returns on every path that [is_file] accepts. *)
Lemma read_headers_ok file_path :
  is_file file_path = true → ∃ headers, read_headers file_path = Ok headers.
Proof.
  intros [text Ht]%is_file_open_text. rewrite (read_headers_open _ _ Ht).
  destruct (reader_next_ok text) as (r & -> & _). simpl.
  destruct r; eauto.
Qed.

Lemma qualifies_is_file path : qualifies path = true → is_file path = true.
Proof. unfold qualifies. by intros [? _]%andb_true_iff. Qed.

Lemma find_files_is_file directory files f p :
  find_files directory = Ok files → files !! f = Some p → is_file p = true.
Proof.
  intros Hf Hp.
  destruct (find_files_lookup_Some _ _ _ _ Hf Hp) as (? & _ & _ & Hq).
  by apply qualifies_is_file.
Qed.

Lemma compare_file_filename dir1 dir2 files1 files2 f r :
  compare_file dir1 dir2 files1 files2 f = Ok r → filename r = f.
Proof.
  unfold compare_file.
  destruct (files1 !! f) as [file1|]; [|by intros [= <-]].
  destruct (files2 !! f) as [file2|]; [|by intros [= <-]].
  destruct (read_headers file1) as [headers1|]; [|done].
  destruct (read_headers file2) as [headers2|]; [|done]. simpl.
  case_match; by intros [= <-].
Qed.

Section loop.
Context (dir1 dir2 : Path) (files1 files2 : gmap string Path).
Context (Hfiles1 : find_files dir1 = Ok files1).
Context (Hfiles2 : find_files dir2 = Ok files2).

Lemma compare_file_ok f :
  ∃ r, compare_file dir1 dir2 files1 files2 f = Ok r.
Proof.
  unfold compare_file.
  destruct (files1 !! f) as [file1|] eqn:H1; [|by eauto].
  destruct (files2 !! f) as [file2|] eqn:H2; [|by eauto].
  destruct (read_headers_ok file1) as [headers1 ->];
    [by apply (find_files_is_file _ _ _ _ Hfiles1 H1)|].
  destruct (read_headers_ok file2) as [headers2 ->];
    [by apply (find_files_is_file _ _ _ _ Hfiles2 H2)|].
  simpl. case_match; eauto.
Qed.

Lemma compare_loop_ok all_filenames results :
  ∃ rs, compare_loop dir1 dir2 files1 files2 all_filenames results
        = Ok (results ++ rs)
        ∧ Forall2 (λ f r, compare_file dir1 dir2 files1 files2 f = Ok r)
            all_filenames rs.
Proof.
  revert results. induction all_filenames as [|f rest IH]; intros results.
  { exists []. by rewrite app_nil_r. }
  simpl. destruct (compare_file_ok f) as [r Hr]. rewrite Hr. simpl.
  destruct (IH (results ++ [r])) as (rs & -> & Hrs).
  exists (r :: rs). rewrite <-app_assoc. split; [done|by constructor].
Qed.

(** [compare_headers] returns one result per name of the sorted union
    of the two key sets, each the result of the loop body. *)
Lemma compare_headers_ok :
  ∃ results, compare_headers dir1 dir2 = Ok results
    ∧ Forall2 (λ f r, compare_file dir1 dir2 files1 files2 f = Ok r)
        (Py.sorted (elements (dom files1 ∪ dom files2))) results.
Proof.
  unfold compare_headers. rewrite Hfiles1, Hfiles2. simpl.
  destruct (compare_loop_ok
              (Py.sorted (elements (dom files1 ∪ dom files2))) [])
    as (rs & -> & Hrs).
  by exists rs.
Qed.


Lemma compare_headers_elem_of results r :
  compare_headers dir1 dir2 = Ok results → r ∈ results →
  filename r ∈ dom files1 ∪ dom files2
  ∧ compare_file dir1 dir2 files1 files2 (filename r) = Ok r.
Proof.
  destruct compare_headers_ok as (rs & -> & Hrs). intros [= <-] Hin.
  apply list_elem_of_lookup in Hin as [i Hi].
  destruct (Forall2_lookup_r _ _ _ _ _ Hrs Hi) as (f & Hf & Hr).
  rewrite (compare_file_filename _ _ _ _ _ _ Hr). split; [|done].
  apply elem_of_elements. unfold Py.sorted in Hf.
  rewrite <-(merge_sort_Permutation String.le). by eapply list_elem_of_lookup_2.
Qed.

Lemma compare_headers_result_for results f r :
  compare_headers dir1 dir2 = Ok results →
  f ∈ dom files1 ∪ dom files2 →
  compare_file dir1 dir2 files1 files2 f = Ok r →
  result_for results f r.
Proof.
  intros Hres Hf Hr. split; [|split].
  - destruct compare_headers_ok as (rs & Hrs' & Hrs).
    rewrite Hres in Hrs'. injection Hrs' as <-.
    assert (f ∈ Py.sorted (elements (dom files1 ∪ dom files2))) as Hin.
    { unfold Py.sorted. rewrite merge_sort_Permutation.
      by apply elem_of_elements. }
    apply list_elem_of_lookup in Hin as [i Hi].
    destruct (Forall2_lookup_l _ _ _ _ _ Hrs Hi) as (r' & Hr' & Hc).
    rewrite Hr in Hc. injection Hc as <-. by eapply list_elem_of_lookup_2.
  - by eapply compare_file_filename.
  - intros r' Hin <-.
    destruct (compare_headers_elem_of _ _ Hres Hin) as [_ Hr'].
    rewrite Hr in Hr'. by injection Hr'.
Qed.

End loop.
End comparison.

(** ** Header rows as sets *)

Section headers.

Lemma difference_list_nil headers others :
  difference_list headers others = [] ↔ ∀ h, h ∈ headers → h ∈ others.
Proof.
  unfold difference_list. rewrite <-(Forall_forall (λ h, h ∈ others)).
  induction headers as [|h headers IH].
  { split; [constructor|done]. }
  rewrite filter_cons, Forall_cons. destruct (decide (h ∉ others)) as [Hh|Hh].
  - split; [done|]. by intros [? _].
  - rewrite IH. apply dec_stable in Hh. naive_solver.
Qed.

Lemma same_header_set_elem_of headers1 headers2 :
  same_header_set headers1 headers2 ↔ ∀ h, h ∈ headers1 ↔ h ∈ headers2.
Proof.
  unfold same_header_set. rewrite set_eq.
  by setoid_rewrite elem_of_list_to_set.
Qed.

Lemma differences_nil_same_set headers1 headers2 :
  difference_list headers1 headers2 = []
  ∧ difference_list headers2 headers1 = []
  ↔ same_header_set headers1 headers2.
Proof.
  rewrite !difference_list_nil, same_header_set_elem_of. naive_solver.
Qed.


(** The loop body on a name both indexes hold, after the two reads. *)
Lemma compare_file_both dir1 dir2 files1 files2 f file1 file2
    headers1 headers2 :
  files1 !! f = Some file1 → files2 !! f = Some file2 →
  read_headers file1 = Ok headers1 → read_headers file2 = Ok headers2 →
  compare_file dir1 dir2 files1 files2 f =
  Ok (if decide (same_header_set headers1 headers2)
      then mkResult f "match" EmptyString
      else mkResult f "mismatch" (mismatch_details headers1 headers2)).
Proof.
  intros H1 H2 Hh1 Hh2. unfold compare_file. rewrite H1, H2, Hh1, Hh2. simpl.
  fold (difference_list headers1 headers2).
  fold (difference_list headers2 headers1).
  unfold mismatch_details.
  destruct (decide (same_header_set headers1 headers2)) as [Hs|Hs].
  - apply differences_nil_same_set in Hs as [-> ->]. done.
  - rewrite <-differences_nil_same_set in Hs.
    destruct (difference_list headers1 headers2) as [|x xs];
      destruct (difference_list headers2 headers1) as [|y ys]; try done.
    by destruct Hs.
Qed.

End headers.

Section difference.

Lemma difference_list_elem_of headers others h :
  h ∈ difference_list headers others ↔ h ∈ headers ∧ h ∉ others.
Proof. unfold difference_list. rewrite list_elem_of_filter. tauto. Qed.



End difference.

(** ** Classification of a pair of files *)





(** ** The result sequence as a whole *)

Section results.

Lemma append_assoc (s1 s2 s3 : string) :
  (s1 +:+ s2) +:+ s3 = s1 +:+ s2 +:+ s3.
Proof.
  induction s1 as [|c s1 IH]; [done|]. exact (f_equal (String c) IH).
Qed.

Lemma append_nil_r (s : string) : s +:+ EmptyString = s.
Proof.
  induction s as [|c s IH]; [done|]. exact (f_equal (String c) IH).
Qed.





(** The three shapes of a result of the loop body. *)
Lemma compare_file_cases dir1 dir2 files1 files2 f r :
  find_files dir1 = Ok files1 → find_files dir2 = Ok files2 →
  compare_file dir1 dir2 files1 files2 f = Ok r →
  (files1 !! f = None
   ∧ r = mkResult f "missing" (f +:+ " not found in " +:+ path_str dir1))
  ∨ (is_Some (files1 !! f) ∧ files2 !! f = None
     ∧ r = mkResult f "missing" (f +:+ " not found in " +:+ path_str dir2))
  ∨ (∃ file1 file2 headers1 headers2,
       files1 !! f = Some file1 ∧ files2 !! f = Some file2
       ∧ read_headers file1 = Ok headers1 ∧ read_headers file2 = Ok headers2
       ∧ r = if decide (same_header_set headers1 headers2)
             then mkResult f "match" EmptyString
             else mkResult f "mismatch" (mismatch_details headers1 headers2)).
Proof.
  intros Hf1 Hf2 Hr.
  destruct (files1 !! f) as [file1|] eqn:H1; cycle 1.
  { left. unfold compare_file in Hr. rewrite H1 in Hr. by injection Hr. }
  destruct (files2 !! f) as [file2|] eqn:H2; cycle 1.
  { right; left. unfold compare_file in Hr. rewrite H1, H2 in Hr.
    injection Hr as <-. eauto. }
  right; right.
  destruct (read_headers_ok file1) as [headers1 Hh1];
    [by apply (find_files_is_file _ _ _ _ Hf1 H1)|].
  destruct (read_headers_ok file2) as [headers2 Hh2];
    [by apply (find_files_is_file _ _ _ _ Hf2 H2)|].
  rewrite (compare_file_both _ _ _ _ _ _ _ _ _ H1 H2 Hh1 Hh2) in Hr.
  injection Hr as <-. by eexists _, _, _, _.
Qed.

End results.





(** ** Order of the results and independence of the enumeration *)

Section order.



Lemma compare_file_path_str dir1 dir2 dir1' dir2' files1 files2 f :
  path_str dir1' = path_str dir1 → path_str dir2' = path_str dir2 →
  compare_file dir1' dir2' files1 files2 f
  = compare_file dir1 dir2 files1 files2 f.
Proof. intros E1 E2. unfold compare_file. by rewrite E1, E2. Qed.

Lemma compare_loop_path_str dir1 dir2 dir1' dir2' files1 files2
    all_filenames results :
  path_str dir1' = path_str dir1 → path_str dir2' = path_str dir2 →
  compare_loop dir1' dir2' files1 files2 all_filenames results
  = compare_loop dir1 dir2 files1 files2 all_filenames results.
Proof.
  intros E1 E2. revert results.
  induction all_filenames as [|f rest IH]; intros results; simpl; [done|].
  rewrite (compare_file_path_str dir1 dir2 dir1' dir2') by done.
  destruct (compare_file dir1 dir2 files1 files2 f); simpl; [apply IH|done].
Qed.



End order.



(** ** The report and the exit of the process *)

Section report.


Lemma main_not_dir args :
  is_dir (dir1 args) = false ∨ is_dir (dir2 args) = false →
  ∃ missing,
    (missing = dir1 args ∨ missing = dir2 args) ∧ is_dir missing = false
    ∧ main args
      = Raise (SystemExit ("Directory not found: " +:+ path_str missing)).
Proof.
  intros H. unfold main. destruct (is_dir (dir1 args)) eqn:H1; simpl.
  - destruct H as [?|H2]; [done|]. rewrite H2. simpl.
    exists (dir2 args). auto.
  - exists (dir1 args). auto.
Qed.

Lemma find_files_not_dir directory :
  is_dir directory = false →
  find_files directory = Raise (FileNotFoundError (path_str directory))
  ∨ find_files directory = Raise (NotADirectoryError (path_str directory)).
Proof.
  intros H. rewrite find_files_unfold.
  destruct (iterdir_not_dir _ H) as [-> | ->]; auto.
Qed.

End report.



(** C7. On a path that is not a directory, [find_files] raises the
    error of the missing directory, naming the path, and
    [compare_headers] returns no result; [main] exits with a status
    other than zero and a message that names a missing directory, and
    writes no report. *)
Theorem C7_missing_directory_is_fatal directory :
  is_dir directory = false →
  (∃ e, find_files directory = Raise e ∧ DirectoryNotFoundError e
        ∧ exn_filename e = Some (path_str directory))
  ∧ (∀ other,
       (∃ e, compare_headers directory other = Raise e)
       ∧ (∃ e, compare_headers other directory = Raise e))
  ∧ ∀ args, dir1 args = directory ∨ dir2 args = directory →
      ∃ missing message,
        (missing = dir1 args ∨ missing = dir2 args)
        ∧ is_dir missing = false
        ∧ message = "Directory not found: " +:+ path_str missing
        ∧ main args = Raise (SystemExit message)
        ∧ exit_status (main args) ≠ 0
        ∧ exit_message (SystemExit message) = Some message
        ∧ contains (path_str missing) message.
Proof.
  intros Hd. split; [|split].
  - destruct (find_files_not_dir _ Hd) as [-> | ->];
      eexists; (split; [done|]); split; try done; eexists; eauto.
  - intros other. split.
    + unfold compare_headers.
      destruct (find_files_not_dir _ Hd) as [-> | ->]; by eauto.
    + unfold compare_headers.
      destruct (find_files other); simpl; [|by eauto].
      destruct (find_files_not_dir _ Hd) as [-> | ->]; by eauto.
  - intros args Hargs.
    destruct (main_not_dir args) as (missing & Hm & Hnd & Hmain).
    { destruct Hargs as [-> | ->]; auto. }
    exists missing, ("Directory not found: " +:+ path_str missing).
    rewrite Hmain. repeat (split; [done|]).
    exists "Directory not found: ", EmptyString.
    by rewrite append_nil_r.
Qed.

Lemma C7_witness :
  (∃ e, find_files Sample.no_such_dir = Raise e ∧ DirectoryNotFoundError e
        ∧ exn_filename e = Some "data/gone")
  ∧ (∀ other,
       (∃ e, compare_headers Sample.no_such_dir other = Raise e)
       ∧ (∃ e, compare_headers other Sample.no_such_dir = Raise e))
  ∧ ∀ args, dir1 args = Sample.no_such_dir ∨ dir2 args = Sample.no_such_dir →
      ∃ missing message,
        (missing = dir1 args ∨ missing = dir2 args)
        ∧ is_dir missing = false
        ∧ message = "Directory not found: " +:+ path_str missing
        ∧ main args = Raise (SystemExit message)
        ∧ exit_status (main args) ≠ 0
        ∧ exit_message (SystemExit message) = Some message
        ∧ contains (path_str missing) message.
Proof. apply (C7_missing_directory_is_fatal Sample.no_such_dir). reflexivity. Defined.

(** ** The file enumerator *)

Section enumerator.

Lemma qualifies_joinpath directory f nd :
  qualifies (joinpath directory (f, nd)) = true ↔
  (∃ text, stat nd = Some (File text)) ∧ has_valid_extension f.
Proof.
  unfold qualifies, is_file, has_valid_extension. simpl.
  rewrite andb_true_iff, bool_decide_eq_true. split.
  - intros [H ?]. split; [|done]. destruct (stat nd) as [[]|]; by eauto.
  - intros [[text ->] ?]. done.
Qed.

End enumerator.

(** C6, as the code has it.  [find_files] files a name exactly when the
    directory has an entry of that name that is a regular file, or a
    symbolic link that resolves to one, and whose suffix is [.csv] or
    [.txt] in any letter case.  Each value is a direct child of the
    directory; a dangling link, a subdirectory or a link to one, and any
    other suffix are left out. *)
Theorem C6_find_files_includes_iff directory files :
  find_files directory = Ok files →
  (∀ f, f ∈ dom files
        ↔ ∃ nd text, (f, nd) ∈ entries directory
                     ∧ stat nd = Some (File text) ∧ has_valid_extension f)
  ∧ (∀ f p, files !! f = Some p →
            ∃ nd, (f, nd) ∈ entries directory
                  ∧ p = joinpath directory (f, nd))
  ∧ (∀ f nd, NoDup (entries directory).*1 → (f, nd) ∈ entries directory →
             stat nd = None ∨ (∃ children, stat nd = Some (Dir children))
             ∨ ¬ has_valid_extension f →
             f ∉ dom files).
Proof.
  intros Hf. split; [|split].
  - intros f. rewrite (find_files_dom _ _ _ Hf). split.
    + intros (nd & Hin & [[text Ht] Hext]%qualifies_joinpath). eauto.
    + intros (nd & text & Hin & Ht & Hext). exists nd. split; [done|].
      apply qualifies_joinpath. eauto.
  - intros f p Hp.
    destruct (find_files_lookup_Some _ _ _ _ Hf Hp) as (nd & ? & ? & _).
    eauto.
  - intros f nd Hnd Hin Hex.
    rewrite (find_files_dom _ _ _ Hf).
    intros (nd' & Hin' & [[text Ht] Hext]%qualifies_joinpath).
    assert (nd' = nd) as ->.
    { apply list_elem_of_lookup in Hin as [i Hi], Hin' as [j Hj].
      assert (i = j) as ->; [|congruence].
      apply (NoDup_lookup _ _ _ f Hnd); rewrite list_lookup_fmap.
      - by rewrite Hi.
      - by rewrite Hj. }
    destruct Hex as [Hex|[[children Hex]|Hex]]; [congruence..|done].
Qed.

Lemma C6_witness :
  ∃ files,
    find_files Sample.dir1 = Ok files
    ∧ (∀ f, f ∈ dom files
            ↔ ∃ nd text, (f, nd) ∈ entries Sample.dir1
                         ∧ stat nd = Some (File text)
                         ∧ has_valid_extension f)
    ∧ (∀ f p, files !! f = Some p →
              ∃ nd, (f, nd) ∈ entries Sample.dir1
                    ∧ p = joinpath Sample.dir1 (f, nd))
    ∧ (∀ f nd, NoDup (entries Sample.dir1).*1 →
               (f, nd) ∈ entries Sample.dir1 →
               stat nd = None ∨ (∃ children, stat nd = Some (Dir children))
               ∨ ¬ has_valid_extension f →
               f ∉ dom files).
Proof.
  eexists. split; [reflexivity|].
  apply (C6_find_files_includes_iff Sample.dir1). reflexivity.
Defined.

(** C6, as the specification words it, fails on a symbolic link: the
    one entry [link.csv] of the sample directory is a link to a regular
    file, and the index holds it. *)
Lemma C6_symlink_is_included :
  ∃ files,
    find_files Sample.dir1 = Ok files
    ∧ is_Some (files !! "link.csv")
    ∧ (∀ nd, ("link.csv", nd) ∈ entries Sample.dir1 →
             ∃ target, nd = Symlink target)
    ∧ ¬ regular_files_only Sample.dir1 files.
Proof.
  assert (∀ nd, ("link.csv", nd) ∈ entries Sample.dir1 →
                ∃ target, nd = Symlink target) as Hlink.
  { intros nd. unfold entries; simpl. rewrite !elem_of_cons, elem_of_nil.
    intros H. repeat (destruct H as [H|H]; [by simplify_eq; eauto|]). done. }
  eexists. split; [reflexivity|]. split; [by eexists|]. split; [done|].
  intros Hreg. destruct (Hreg "link.csv") as [Hdom _].
  destruct Hdom as (text & Hin & _).
  - apply elem_of_dom. by eexists.
  - by destruct (Hlink _ Hin).
Qed.

(** ** The header extractor *)

Section strip.
Import Py.






End strip.

(** ** The scenarios of the specification, on the sample directories *)

Section scenarios.

Example sample_results :
  compare_headers Sample.dir1 Sample.dir2 =
  Ok [ mkResult "a.csv" "match" EmptyString;
       mkResult "b.csv" "mismatch" "Dir1 headers missing in Dir2: 'age'";
       mkResult "c.txt" "missing" "c.txt not found in data/new";
       mkResult "empty.CSV" "match" EmptyString;
       mkResult "link.csv" "mismatch"
         "Dir1 headers missing in Dir2: 'p'; Dir2 headers missing in Dir1: 'r', 'r'" ].
Proof. reflexivity. Qed.

(** Scenario E: an entry with another suffix is in neither index. *)
Example sample_json_excluded :
  ∃ files1 files2,
    find_files Sample.dir1 = Ok files1 ∧ find_files Sample.dir2 = Ok files2
    ∧ files1 !! "notes.json" = None ∧ files2 !! "notes.json" = None.
Proof. eexists _, _. repeat split; reflexivity. Qed.

(** The subdirectory, the file inside it and the dangling link are not
    in the index. *)
Example sample_not_listed :
  ∃ files1,
    find_files Sample.dir1 = Ok files1
    ∧ files1 !! "sub" = None ∧ files1 !! "deep.csv" = None
    ∧ files1 !! "dangling.csv" = None.
Proof. eexists. repeat split; reflexivity. Qed.

Example sample_report :
  main (mkArgs Sample.dir1 Sample.dir2 Sample.output) =
  Ok (Sample.output,
      Py.join (String Py.CR Sample.nl)
        [ "filename,status,details";
          "a.csv,match,";
          "b.csv,mismatch,Dir1 headers missing in Dir2: 'age'";
          "c.txt,missing,c.txt not found in data/new";
          "empty.CSV,match,";
          "link.csv,mismatch," +:+ Py.str1 Py.QUOTE
          +:+ "Dir1 headers missing in Dir2: 'p'; Dir2 headers missing in Dir1: 'r', 'r'"
          +:+ Py.str1 Py.QUOTE;
          EmptyString ]).
Proof. reflexivity. Qed.

Example sample_suffixes :
  Py.suffix "a.csv" = ".csv" ∧ Py.suffix "archive.tar.TXT" = ".TXT"
  ∧ Py.suffix ".csv" = EmptyString ∧ Py.suffix "csv" = EmptyString
  ∧ Py.suffix "a." = EmptyString
  ∧ Py.lower (Py.suffix "archive.tar.TXT") = ".txt".
Proof. repeat split; reflexivity. Qed.

(** A quoted field may hold the delimiter and a line break, and a
    doubled quote stands for one. *)
Example sample_quoted_record :
  Py.reader_next
    ("a," +:+ Py.str1 Py.QUOTE +:+ "b,c" +:+ Sample.nl +:+ "d"
     +:+ Py.str1 Py.QUOTE +:+ Py.str1 Py.QUOTE +:+ "e" +:+ Py.str1 Py.QUOTE
     +:+ ",f" +:+ Sample.nl +:+ "g,h" +:+ Sample.nl)
  = Ok (Some ["a";
              "b,c" +:+ Sample.nl +:+ "d" +:+ Py.str1 Py.QUOTE +:+ "e";
              "f"]).
Proof. reflexivity. Qed.

End scenarios.

(** * Further properties of the script *)

(** ** [read_headers] on its own *)

(** X2. A file that begins with a line terminator has no headers,
    whatever follows the blank line. *)
Theorem read_headers_blank_first_line file_path c rest :
  open_text file_path = Ok (String c rest) → Py.is_newline c = true →
  read_headers file_path = Ok [].
Proof.
  intros Hopen Hc. rewrite (read_headers_open _ _ Hopen).
  unfold Py.is_newline in Hc. apply orb_true_iff in Hc.
  rewrite !bool_decide_eq_true in Hc. unfold Py.reader_next.
  destruct Hc as [-> | ->]; [done|].
  destruct rest as [|c' rest']; [done|]. simpl.
  by destruct (decide (c' = Py.LF)).
Qed.

Lemma read_headers_blank_first_line_witness :
  read_headers Sample2.blank_first = Ok [].
Proof.
  apply (read_headers_blank_first_line Sample2.blank_first Py.LF
           ("id,name" +:+ Sample.nl)); reflexivity.
Defined.

(** ** What the results can hold *)

(** X3. Every result has one of the three statuses, and its filename is
    the name of an entry of one of the two directories with a valid
    extension: no result names a file of another type. *)
Theorem results_name_qualifying_entries dir1 dir2 results r :
  compare_headers dir1 dir2 = Ok results → r ∈ results →
  status r ∈ ["match"; "mismatch"; "missing"]
  ∧ has_valid_extension (filename r)
  ∧ ((∃ nd, (filename r, nd) ∈ entries dir1)
     ∨ (∃ nd, (filename r, nd) ∈ entries dir2)).
Proof.
  intros Hres Hin. unfold compare_headers in Hres.
  destruct (find_files dir1) as [files1|] eqn:Hf1; [|done].
  destruct (find_files dir2) as [files2|] eqn:Hf2; [|done].
  assert (compare_headers dir1 dir2 = Ok results) as Hres'.
  { unfold compare_headers. by rewrite Hf1, Hf2. }
  destruct (compare_headers_elem_of _ _ _ _ Hf1 Hf2 _ _ Hres' Hin)
    as [Hdom Hr].
  split; [|split].
  - destruct (compare_file_cases _ _ _ _ _ _ Hf1 Hf2 Hr)
      as [[_ ->]|[(_ & _ & ->)|(? & ? & h1 & h2 & _ & _ & _ & _ & ->)]];
      simpl; [set_solver..|].
    destruct (decide (same_header_set h1 h2)); simpl; set_solver.
  - apply elem_of_union in Hdom as [Hd|Hd].
    + apply (find_files_dom _ _ _ Hf1) in Hd as (nd & _ & Hq).
      by apply qualifies_joinpath in Hq as [_ ?].
    + apply (find_files_dom _ _ _ Hf2) in Hd as (nd & _ & Hq).
      by apply qualifies_joinpath in Hq as [_ ?].
  - apply elem_of_union in Hdom as [Hd|Hd].
    + apply (find_files_dom _ _ _ Hf1) in Hd as (nd & ? & _). eauto.
    + apply (find_files_dom _ _ _ Hf2) in Hd as (nd & ? & _). eauto.
Qed.

Lemma results_name_qualifying_entries_witness :
  status (mkResult "c.txt" "missing" "c.txt not found in data/new")
    ∈ ["match"; "mismatch"; "missing"]
  ∧ has_valid_extension "c.txt"
  ∧ ((∃ nd, ("c.txt", nd) ∈ entries Sample.dir1)
     ∨ (∃ nd, ("c.txt", nd) ∈ entries Sample.dir2)).
Proof.
  apply (results_name_qualifying_entries Sample.dir1 Sample.dir2 _
           (mkResult "c.txt" "missing" "c.txt not found in data/new")
           eq_refl).
  apply list_elem_of_further, list_elem_of_further, list_elem_of_here.
Defined.

(** ** The two directories against each other *)

Section symmetry.

Lemma same_header_set_sym headers1 headers2 :
  same_header_set headers1 headers2 → same_header_set headers2 headers1.
Proof. unfold same_header_set. by intros ->. Qed.


End symmetry.



(** ** What the details of a mismatch show *)

Section details.

Lemma contains_refl s : contains s s.
Proof. exists EmptyString, EmptyString. by rewrite append_nil_r. Qed.

Lemma contains_app sub s pre post :
  contains sub s → contains sub (pre +:+ s +:+ post).
Proof.
  intros (p & q & ->). exists (pre +:+ p), (q +:+ post).
  by rewrite !append_assoc.
Qed.

Lemma contains_join sep x parts :
  x ∈ parts → contains x (Py.join sep parts).
Proof.
  induction parts as [|y parts IH]; [by intros ?%elem_of_nil|].
  intros [->|Hin]%elem_of_cons.
  - destruct parts as [|z parts]; [apply contains_refl|].
    apply (contains_app y y EmptyString), contains_refl.
  - destruct parts as [|z parts]; [by apply elem_of_nil in Hin|].
    change (Py.join sep (y :: z :: parts))
      with (y +:+ sep +:+ Py.join sep (z :: parts)).
    rewrite <-(append_nil_r (Py.join sep (z :: parts))).
    rewrite <-append_assoc. by apply contains_app, IH.
Qed.

Lemma contains_trans a b c : contains a b → contains b c → contains a c.
Proof. intros Hab (p & q & ->). by apply contains_app. Qed.

Lemma contains_clause label missing h rest1 rest2 :
  h ∈ missing →
  contains (quoted h)
    (Py.join "; " (rest1 ++ clause label missing ++ rest2)).
Proof.
  intros Hin.
  assert (clause label missing
          = [label +:+ Py.join ", " (quoted <$> missing)]) as ->.
  { destruct missing; [by apply elem_of_nil in Hin|done]. }
  apply (contains_trans _ (label +:+ Py.join ", " (quoted <$> missing))).
  - rewrite <-(append_nil_r (Py.join _ _)).
    apply contains_app, contains_join. by apply list_elem_of_fmap_2.
  - apply contains_join. rewrite !elem_of_app, list_elem_of_singleton. auto.
Qed.

End details.

(** X8. In the details of a mismatch every header that one file has and
    the other lacks appears in single quotes. *)
Theorem mismatch_details_show_each_missing_header
    dir1 dir2 files1 files2 f file1 file2 headers1 headers2 results r h :
  find_files dir1 = Ok files1 → find_files dir2 = Ok files2 →
  files1 !! f = Some file1 → files2 !! f = Some file2 →
  read_headers file1 = Ok headers1 → read_headers file2 = Ok headers2 →
  compare_headers dir1 dir2 = Ok results →
  r ∈ results → filename r = f →
  (h ∈ headers1 ∧ h ∉ headers2) ∨ (h ∈ headers2 ∧ h ∉ headers1) →
  status r = "mismatch" ∧ contains (quoted h) (details r).
Proof.
  intros Hf1 Hf2 H1 H2 Hh1 Hh2 Hres Hin <- Hh.
  destruct (compare_headers_elem_of _ _ _ _ Hf1 Hf2 _ _ Hres Hin)
    as [_ Hr].
  rewrite (compare_file_both _ _ _ _ _ _ _ _ _ H1 H2 Hh1 Hh2) in Hr.
  injection Hr as <-.
  destruct (decide (same_header_set headers1 headers2)) as [Hs|Hs].
  { rewrite same_header_set_elem_of in Hs.
    destruct Hh as [[? ?]|[? ?]]; naive_solver. }
  simpl. split; [done|]. unfold mismatch_details.
  destruct Hh as [Hh|Hh].
  - apply (contains_clause _ _ h []). by apply difference_list_elem_of.
  - rewrite <-(app_nil_r (clause "Dir2 headers missing in Dir1: " _)).
    apply contains_clause. by apply difference_list_elem_of.
Qed.

Lemma mismatch_details_show_each_missing_header_witness :
  status (mkResult "link.csv" "mismatch"
            "Dir1 headers missing in Dir2: 'p'; Dir2 headers missing in Dir1: 'r', 'r'")
  = "mismatch"
  ∧ contains (quoted "r")
      (details
         (mkResult "link.csv" "mismatch"
            "Dir1 headers missing in Dir2: 'p'; Dir2 headers missing in Dir1: 'r', 'r'")).
Proof.
  eapply (mismatch_details_show_each_missing_header
            Sample.dir1 Sample.dir2 _ _ "link.csv" _ _ ["p"; "q"]
            ["q"; "r"; "r"]);
    [reflexivity..| | |].
  - do 4 apply list_elem_of_further. apply list_elem_of_here.
  - reflexivity.
  - right. split; [set_solver|]. set_solver.
Defined.

(** ** The csv reader, character by character *)

Section feed.
Import Py.

Lemma reader_loop_cons_char self c line lines :
  reader_loop self (String c line :: lines)
  = let* s := parse_process_char self (Some c) in
    reader_loop s (line :: lines).
Proof. simpl. by destruct (parse_process_char self (Some c)). Qed.

Lemma is_newline_false c : is_newline c = false → c ≠ LF ∧ c ≠ CR.
Proof.
  unfold is_newline. intros [H1 H2]%orb_false_iff.
  by apply bool_decide_eq_false in H1, H2.
Qed.

Lemma is_newline_true c : is_newline c = true → c = LF ∨ c = CR.
Proof.
  unfold is_newline. intros [H|H]%orb_true_iff;
    apply bool_decide_eq_true in H; auto.
Qed.

Lemma readlines_head c rest :
  is_newline c = false →
  ∃ line lines, readlines (String c rest) = String c line :: lines
    ∧ (rest ≠ EmptyString → readlines rest = line :: lines).
Proof.
  intros [H1 H2]%is_newline_false. simpl.
  rewrite !decide_False by done.
  destruct (readlines rest) as [|line lines] eqn:E.
  - exists EmptyString, []. split; [done|]. intros Hne.
    by apply readlines_nil in E.
  - by exists line, lines.
Qed.

Lemma reader_step self c rest :
  (is_newline c = false ∧ rest ≠ EmptyString)
  ∨ (state self = IN_QUOTED_FIELD ∧ is_newline c = true) →
  reader_loop self (readlines (String c rest))
  = let* s := parse_process_char self (Some c) in
    reader_loop s (readlines rest).
Proof.
  intros [[Hc Hrest]|[Hst Hc]].
  - destruct (readlines_head c rest Hc) as (line & lines & -> & E).
    rewrite (E Hrest). apply reader_loop_cons_char.
  - destruct self as [st fs fld]. simpl in Hst. subst st.
    destruct (is_newline_true c Hc) as [-> | ->]; [done|].
    destruct rest as [|c' rest']; [done|]. simpl.
    destruct (decide (c' = LF)) as [->|?]; done.
Qed.

Lemma feed_app self a b :
  feed self (a +:+ b) = feed self a ≫= λ s, feed s b.
Proof.
  revert self. induction a as [|c a IH]; intros self; [done|].
  change (String c a +:+ b) with (String c (a +:+ b)). simpl.
  destruct (negb (is_newline c)
            || bool_decide (state self = IN_QUOTED_FIELD)); [|done].
  destruct (parse_process_char self (Some c)); [apply IH|done].
Qed.


Lemma append_not_nil_r (a b : string) :
  b ≠ EmptyString → a +:+ b ≠ EmptyString.
Proof. destruct a; [done|]. by intros _. Qed.

(** Reading a text whose first characters the reader can be fed comes
    to reading the rest from the state they leave. *)
Lemma reader_loop_feed self body tail s :
  feed self body = Some s → tail ≠ EmptyString →
  reader_loop self (readlines (body +:+ tail))
  = reader_loop s (readlines tail).
Proof.
  intros Hfeed Htail. revert self Hfeed.
  induction body as [|c b IH]; intros self Hfeed; simpl in Hfeed.
  { by injection Hfeed as ->. }
  destruct (negb (is_newline c)
            || bool_decide (state self = IN_QUOTED_FIELD)) eqn:Hc; [|done].
  destruct (parse_process_char self (Some c)) as [s1|] eqn:Hp; [|done].
  change (String c b +:+ tail) with (String c (b +:+ tail)).
  rewrite reader_step, Hp; [by apply IH|].
  destruct (is_newline c) eqn:Hn; [right|left].
  - split; [|done]. simpl in Hc. by apply bool_decide_eq_true in Hc.
  - split; [done|]. by apply append_not_nil_r.
Qed.

End feed.

(** ** Rows of fields read back *)

Section rows.
Import Py.

#[local] Arguments is_newline : simpl never.
#[local] Arguments needs_quoting : simpl never.

Lemma needs_quoting_false c :
  needs_quoting c = false → c ≠ COMMA ∧ c ≠ QUOTE ∧ is_newline c = false.
Proof.
  unfold needs_quoting.
  intros [[H1 H2]%orb_false_iff H3]%orb_false_iff.
  by apply bool_decide_eq_false in H1, H2.
Qed.

Lemma plain_cons c s :
  plain (String c s) = true → needs_quoting c = false ∧ plain s = true.
Proof.
  unfold plain. simpl. rewrite negb_orb, andb_true_iff, !negb_true_iff.
  done.
Qed.

Lemma feed_app_Some self a b s :
  feed self a = Some s → feed self (a +:+ b) = feed s b.
Proof. intros H. by rewrite feed_app, H. Qed.

Lemma feed_in_field fs x g :
  plain g = true →
  feed (mkReader IN_FIELD fs x) g = Some (mkReader IN_FIELD fs (x +:+ g)).
Proof.
  revert x. induction g as [|c g IH]; intros x Hg; simpl.
  { by rewrite append_nil_r. }
  apply plain_cons in Hg as [(Hc1 & Hc2 & Hn)%needs_quoting_false Hg].
  rewrite Hn. unfold parse_process_char. simpl. rewrite Hn.
  rewrite decide_False by done.
  unfold parse_add_char. simpl. rewrite IH by done.
  by rewrite append_assoc.
Qed.

Lemma feed_plain_field fs f :
  plain f = true → ∃ s, feed (fresh fs) f = Some s ∧ pending s fs f.
Proof.
  intros Hf. destruct f as [|c f].
  { exists (fresh fs). split; [done|]. repeat split. by left. }
  apply plain_cons in Hf as [(Hc1 & Hc2 & Hn)%needs_quoting_false Hf].
  simpl. rewrite Hn. unfold parse_process_char, start_field. simpl.
  rewrite ?Hn, !decide_False by done.
  unfold parse_add_char, set_state. simpl.
  rewrite feed_in_field by done.
  eexists. split; [done|]. repeat split. right. by left.
Qed.

Lemma feed_in_quoted fs x g :
  feed (mkReader IN_QUOTED_FIELD fs x) (double_quotes g)
  = Some (mkReader IN_QUOTED_FIELD fs (x +:+ g)).
Proof.
  revert x. induction g as [|c g IH]; intros x; simpl.
  { by rewrite append_nil_r. }
  destruct (decide (c = QUOTE)) as [->|Hc]; simpl.
  - unfold parse_process_char, parse_add_char, set_state. simpl.
    rewrite IH. by rewrite append_assoc.
  - rewrite orb_true_r. unfold parse_process_char. simpl.
    rewrite decide_False by done. unfold parse_add_char. simpl.
    rewrite IH. by rewrite append_assoc.
Qed.

Lemma feed_quoted_field fs f :
  feed (fresh fs) (str1 QUOTE +:+ double_quotes f +:+ str1 QUOTE)
  = Some (mkReader QUOTE_IN_QUOTED_FIELD fs f).
Proof.
  change (str1 QUOTE +:+ double_quotes f +:+ str1 QUOTE)
    with (String QUOTE (double_quotes f +:+ str1 QUOTE)).
  simpl. unfold parse_process_char, start_field, set_state. simpl.
  by rewrite (feed_app_Some _ _ _ _ (feed_in_quoted _ _ _)).
Qed.

Lemma feed_csv_field fs f :
  ∃ s, feed (fresh fs) (csv_field f) = Some s ∧ pending s fs f.
Proof.
  unfold csv_field. destruct (any_char needs_quoting f) eqn:E.
  - rewrite feed_quoted_field. eexists. split; [done|].
    repeat split. right. by right.
  - apply feed_plain_field. unfold plain. by rewrite E.
Qed.

Lemma feed_comma s fs f :
  pending s fs f → feed s (str1 COMMA) = Some (fresh (fs ++ [f])).
Proof.
  destruct s as [st fs' fld]. unfold pending. simpl.
  intros (-> & -> & [[-> ->]|[-> | ->]]); done.
Qed.

(** The reader fed the fields of a row as the writer joins them. *)
Lemma feed_row row' f fs :
  ∃ s init lst,
    f :: row' = init ++ [lst]
    ∧ feed (fresh fs) (join (str1 COMMA) (csv_field <$> (f :: row'))) = Some s
    ∧ pending s (fs ++ init) lst.
Proof.
  revert f fs. induction row' as [|g row' IH]; intros f fs.
  { destruct (feed_csv_field fs f) as (s & Hs & Hp).
    exists s, [], f. by rewrite app_nil_r. }
  change (join (str1 COMMA) (csv_field <$> (f :: g :: row')))
    with (csv_field f +:+ str1 COMMA
          +:+ join (str1 COMMA) (csv_field <$> (g :: row'))).
  destruct (feed_csv_field fs f) as (s1 & Hs1 & Hp1).
  destruct (IH g (fs ++ [f])) as (s & init & lst & Hrow & Hs & Hp).
  exists s, (f :: init), lst. split; [by rewrite Hrow|].
  rewrite (feed_app_Some _ _ _ _ Hs1).
  rewrite (feed_app_Some _ _ _ _ (feed_comma _ _ _ Hp1)).
  split; [done|]. by rewrite <-app_assoc in Hp.
Qed.

(** A line terminator after a pending field ends the record. *)
Lemma pending_newline s fs f c rest :
  pending s fs f → is_newline c = true →
  reader_loop s (readlines (String c rest)) = Ok (Some (fs ++ [f])).
Proof.
  destruct s as [st fs' fld]. unfold pending. simpl.
  intros (-> & -> & Hst) Hc.
  destruct (is_newline_true c Hc) as [-> | ->].
  - destruct Hst as [[-> ->]|[-> | ->]]; done.
  - destruct rest as [|c' rest'].
    { destruct Hst as [[-> ->]|[-> | ->]]; done. }
    simpl. destruct (decide (c' = LF)) as [->|?];
      destruct Hst as [[-> ->]|[-> | ->]]; done.
Qed.


Lemma reader_start c line lines :
  is_newline c = false →
  reader_loop parse_reset (String c line :: lines)
  = reader_loop (fresh []) (String c line :: lines).
Proof.
  intros Hc. rewrite !reader_loop_cons_char.
  unfold parse_process_char. simpl. by rewrite Hc.
Qed.

Lemma csv_field_head f :
  csv_field f = EmptyString
  ∨ ∃ c t, csv_field f = String c t ∧ is_newline c = false.
Proof.
  unfold csv_field. destruct (any_char needs_quoting f) eqn:E.
  - right. by eexists QUOTE, _.
  - destruct f as [|c f]; [by left|right]. simpl in E.
    apply orb_false_iff in E as [(_ & _ & Hn)%needs_quoting_false _].
    by exists c, f.
Qed.

Lemma row_text_head row :
  join (str1 COMMA) (csv_field <$> row) ≠ EmptyString →
  ∃ c t, join (str1 COMMA) (csv_field <$> row) = String c t
         ∧ is_newline c = false.
Proof.
  destruct row as [|f [|g row]]; [done|..].
  - simpl. by destruct (csv_field_head f) as [->|(c & t & -> & ?)]; eauto.
  - intros _.
    change (join (str1 COMMA) (csv_field <$> (f :: g :: row)))
      with (csv_field f +:+ str1 COMMA
            +:+ join (str1 COMMA) (csv_field <$> (g :: row))).
    destruct (csv_field_head f) as [->|(c & t & -> & ?)].
    + by eexists COMMA, _.
    + by eexists c, _.
Qed.

(** A row as the writer joins it, ended by a line terminator, reads
    back as the first record of any text it begins. *)
Lemma reader_next_row row c rest :
  join (str1 COMMA) (csv_field <$> row) ≠ EmptyString →
  is_newline c = true →
  reader_next (join (str1 COMMA) (csv_field <$> row) +:+ String c rest)
  = Ok (Some row).
Proof.
  intros Hne Hc. unfold reader_next.
  destruct row as [|f row']; [done|].
  destruct (feed_row row' f []) as (s & init & lst & Hrow & Hs & Hp).
  destruct (row_text_head _ Hne) as (c0 & t & Ht & Hc0).
  set (T := join (str1 COMMA) (csv_field <$> f :: row')) in *.
  assert (reader_loop parse_reset (readlines (T +:+ String c rest))
          = reader_loop (fresh []) (readlines (T +:+ String c rest))) as ->.
  { rewrite Ht.
    change (String c0 t +:+ String c rest)
      with (String c0 (t +:+ String c rest)).
    destruct (readlines_head c0 (t +:+ String c rest) Hc0)
      as (line & lines & -> & _).
    by apply reader_start. }
  rewrite (reader_loop_feed _ _ _ _ Hs) by done.
  rewrite (pending_newline _ _ _ _ _ Hp Hc). by rewrite Hrow.
Qed.

End rows.

(** ** The report read back *)

Section report_text.
Import Py.

Lemma write_report_text results output :
  write_report results output
  = (output,
     writerow ["filename"; "status"; "details"] +:+ report_rows results).
Proof.
  unfold write_report. f_equal.
  generalize (writerow ["filename"; "status"; "details"]).
  induction results as [|r results IH]; intros handle; simpl.
  { by rewrite append_nil_r. }
  by rewrite IH, append_assoc.
Qed.

Lemma write_report_snd results output :
  (write_report results output).2
  = writerow ["filename"; "status"; "details"] +:+ report_rows results.
Proof. by rewrite write_report_text. Qed.

Lemma report_rows_app pre post :
  report_rows (pre ++ post) = report_rows pre +:+ report_rows post.
Proof.
  induction pre as [|r pre IH]; [done|]. simpl.
  by rewrite IH, append_assoc.
Qed.

Lemma writerow_read_back row rest :
  join (str1 COMMA) (csv_field <$> row) ≠ EmptyString →
  reader_next (writerow row +:+ rest) = Ok (Some row).
Proof.
  intros Hne. unfold writerow. rewrite append_assoc.
  by apply reader_next_row.
Qed.

Lemma report_row_text_not_nil a b c :
  join (str1 COMMA) (csv_field <$> [a; b; c]) ≠ EmptyString.
Proof.
  change (csv_field a +:+ String COMMA (csv_field b +:+ str1 COMMA
          +:+ csv_field c) ≠ EmptyString).
  by apply append_not_nil_r.
Qed.

End report_text.

(** X10. The report is itself a file [read_headers] accepts: its headers
    are filename, status and details. *)
Theorem read_headers_of_report results output file_path :
  open_text file_path = Ok (write_report results output).2 →
  read_headers file_path = Ok ["filename"; "status"; "details"].
Proof.
  intros Hopen. rewrite (read_headers_open _ _ Hopen).
  rewrite write_report_snd, writerow_read_back; done.
Qed.

Lemma read_headers_of_report_witness :
  read_headers Sample3.report_file = Ok ["filename"; "status"; "details"].
Proof.
  apply (read_headers_of_report Sample3.results Sample.output).
  reflexivity.
Defined.

(** ** A header line without quotes *)

Section plain_line.
Import Py.







End plain_line.



(** ** Which names qualify *)

Section extension.
Import Py.

Lemma rfind_dot_app a b i :
  rfind_dot b = Some i → rfind_dot (a +:+ b) = Some (String.length a + i).
Proof.
  intros Hb. induction a as [|c a IH]; [done|].
  change (String c a +:+ b) with (String c (a +:+ b)). simpl.
  by rewrite IH.
Qed.

Lemma drop_str_app a b : drop_str (String.length a) (a +:+ b) = b.
Proof. induction a as [|c a IH]; [by destruct b|]. apply IH. Qed.

Lemma drop_str_split i s :
  i ≤ String.length s →
  ∃ stem, s = stem +:+ drop_str i s ∧ String.length stem = i.
Proof.
  revert s. induction i as [|i IH]; intros s Hi.
  { by exists EmptyString. }
  destruct s as [|c s]; simpl in Hi; [lia|].
  destruct (IH s) as (stem & Hs & Hlen); [lia|].
  exists (String c stem). simpl. split; [|by rewrite Hlen].
  change (String c stem +:+ drop_str i s)
    with (String c (stem +:+ drop_str i s)). by rewrite <-Hs.
Qed.

Lemma append_length (a b : string) :
  String.length (a +:+ b) = String.length a + String.length b.
Proof. induction a as [|c a IH]; [done|]. simpl. by rewrite <-IH. Qed.

Lemma lower_char_dot c : lower_char c = DOT → c = DOT.
Proof.
  destruct c as [[] [] [] [] [] [] [] []]; vm_compute; congruence.
Qed.

Lemma lower_char_letter c d :
  d ∈ ["c"; "s"; "v"; "t"; "x"]%char → lower_char c = d → c ≠ DOT.
Proof. intros Hd Hc ->. vm_compute in Hc. subst d. set_solver. Qed.

(** A string that lower-cases to a valid extension is a dot and three
    characters that are no dots. *)
Lemma lower_valid_extension ext :
  lower ext ∈ VALID_EXTENSIONS →
  ∃ e1 e2 e3,
    ext = String DOT (String e1 (String e2 (String e3 EmptyString)))
    ∧ e1 ≠ DOT ∧ e2 ≠ DOT ∧ e3 ≠ DOT.
Proof.
  unfold VALID_EXTENSIONS.
  rewrite elem_of_union, !elem_of_singleton.
  destruct ext as [|e0 [|e1 [|e2 [|e3 [|e4 ext]]]]];
    try (by intros [[=]|[=]]).
  intros H. exists e1, e2, e3.
  assert (e0 = DOT) as ->.
  { apply lower_char_dot. destruct H as [H|H]; by injection H. }
  split; [done|].
  destruct H as [H|H]; injection H as H1 H2 H3;
    repeat split; eapply lower_char_letter; try eassumption; set_solver.
Qed.

Lemma suffix_app_extension stem e1 e2 e3 :
  stem ≠ EmptyString → e1 ≠ DOT → e2 ≠ DOT → e3 ≠ DOT →
  suffix (stem +:+ String DOT (String e1 (String e2 (String e3 EmptyString))))
  = String DOT (String e1 (String e2 (String e3 EmptyString))).
Proof.
  intros Hstem H1 H2 H3. unfold suffix.
  rewrite (rfind_dot_app _ _ 0).
  2:{ simpl. destruct (decide (e3 = DOT)); [done|].
      destruct (decide (e2 = DOT)); [done|].
      destruct (decide (e1 = DOT)); [done|].
      by destruct (decide (DOT = DOT)). }
  rewrite append_length, Nat.add_0_r. simpl String.length.
  destruct stem as [|c stem]; [done|].
  replace (0 <? String.length (String c stem)) with true by done.
  replace (String.length (String c stem)
           <? String.length (String c stem) + 4 - 1) with true
    by (symmetry; apply Nat.ltb_lt; lia).
  simpl andb. apply drop_str_app.
Qed.

End extension.

(** X12. A name has a valid extension exactly when it is a stem that is
    not empty followed by [.csv] or [.txt] in any letter case; a name
    that is only such an extension does not qualify. *)
Theorem valid_extension_iff_stem_and_extension f :
  has_valid_extension f
  ↔ ∃ stem ext,
      f = stem +:+ ext ∧ stem ≠ EmptyString
      ∧ Py.lower ext ∈ VALID_EXTENSIONS.
Proof.
  unfold has_valid_extension. split.
  - intros H. unfold Py.suffix in *.
    destruct (Py.rfind_dot f) as [i|] eqn:Hi; [|by vm_compute in H; set_solver].
    destruct ((0 <? i) && (i <? String.length f - 1)) eqn:Hb;
      [|by vm_compute in H; set_solver].
    apply andb_true_iff in Hb as [H0%Nat.ltb_lt Hlt%Nat.ltb_lt].
    destruct (drop_str_split i f) as (stem & Hf & Hlen); [lia|].
    exists stem, (Py.drop_str i f). split; [done|]. split; [|done].
    intros ->. simpl in Hlen. lia.
  - intros (stem & ext & -> & Hstem & Hext).
    destruct (lower_valid_extension _ Hext)
      as (e1 & e2 & e3 & -> & H1 & H2 & H3).
    by rewrite suffix_app_extension.
Qed.

(** ** Match across three directories *)

Section transitivity.

Lemma compare_headers_Ok_find_files dir1 dir2 results :
  compare_headers dir1 dir2 = Ok results →
  ∃ files1 files2,
    find_files dir1 = Ok files1 ∧ find_files dir2 = Ok files2.
Proof.
  unfold compare_headers.
  destruct (find_files dir1) as [files1|]; [|done].
  destruct (find_files dir2) as [files2|]; [|done]. by eauto.
Qed.


End transitivity.



(** ** Entries that do not qualify *)

Section ignored.

Lemma joinpath_path_str directory directory' entry :
  path_str directory' = path_str directory →
  joinpath directory' entry = joinpath directory entry.
Proof. intros E. unfold joinpath. by rewrite E. Qed.

Lemma find_files_skip directory directory' before entry after :
  is_dir directory = true → is_dir directory' = true →
  path_str directory' = path_str directory →
  entries directory = before ++ after →
  entries directory' = before ++ entry :: after →
  qualifies (joinpath directory entry) = false →
  find_files directory' = find_files directory.
Proof.
  intros Hd Hd' Hstr He He' Hq. rewrite !find_files_is_dir by done.
  rewrite He, He'. f_equal.
  rewrite !fmap_app, fmap_cons, !foldl_app. simpl.
  rewrite (joinpath_path_str _ _ entry Hstr).
  unfold add_file at 2. rewrite Hq.
  f_equal; [f_equal|]; apply list_fmap_ext; intros _ e _;
    by apply joinpath_path_str.
Qed.

End ignored.

(** X15. An entry that does not qualify (another extension, a
    subdirectory, a dangling link) changes nothing: with or without it
    in either directory the results are the same. *)
Theorem non_qualifying_entry_is_ignored
    directory directory' other before entry after :
  is_dir directory = true → is_dir directory' = true →
  path_str directory' = path_str directory →
  entries directory = before ++ after →
  entries directory' = before ++ entry :: after →
  qualifies (joinpath directory entry) = false →
  compare_headers directory' other = compare_headers directory other
  ∧ compare_headers other directory' = compare_headers other directory.
Proof.
  intros Hd Hd' Hstr He He' Hq.
  pose proof (find_files_skip _ _ _ _ _ Hd Hd' Hstr He He' Hq) as Hfind.
  unfold compare_headers. rewrite Hfind. split.
  - destruct (find_files directory); simpl; [|done].
    destruct (find_files other); simpl; [|done].
    by apply compare_loop_path_str.
  - destruct (find_files other); simpl; [|done].
    destruct (find_files directory); simpl; [|done].
    by apply compare_loop_path_str.
Qed.

Lemma non_qualifying_entry_is_ignored_witness :
  compare_headers Sample4.with_notes Sample.dir2
  = compare_headers Sample4.without_notes Sample.dir2
  ∧ compare_headers Sample.dir2 Sample4.with_notes
    = compare_headers Sample.dir2 Sample4.without_notes.
Proof.
  apply (non_qualifying_entry_is_ignored
           Sample4.without_notes Sample4.with_notes Sample.dir2
           [("a.csv", File ("id,name" +:+ Sample.nl))]
           ("notes.json", File "{}")
           [("c.txt", File ("key" +:+ Sample.nl))]);
    reflexivity.
Defined.

(** * The details of a mismatch, letter by letter *)

Section words.




End words.



(** * The first record of a text *)

Section first_line.
Import Py.

#[local] Arguments is_newline : simpl never.
#[local] Arguments needs_quoting : simpl never.










End first_line.



(** * A directory against itself *)

(** X5. When a directory is compared with itself, every entry of it that
    is a regular file, or a link to one, with a valid extension has one
    result, of status match and with empty details; and the results
    hold nothing but matches. *)
Theorem self_comparison_all_match directory results :
  compare_headers directory directory = Ok results →
  (∀ f nd text,
     (f, nd) ∈ entries directory → stat nd = Some (File text) →
     has_valid_extension f →
     result_for results f (mkResult f "match" EmptyString))
  ∧ ∀ r, r ∈ results → status r = "match" ∧ details r = EmptyString.
Proof.
  intros Hres.
  destruct (compare_headers_Ok_find_files _ _ _ Hres)
    as (files & files' & Hf & Hf').
  rewrite Hf in Hf'. injection Hf' as <-.
  assert (∀ f, f ∈ dom files →
               compare_file directory directory files files f
               = Ok (mkResult f "match" EmptyString)) as Hmatch.
  { intros f [file Hfile]%elem_of_dom.
    destruct (read_headers_ok file) as [headers Hh];
      [by apply (find_files_is_file _ _ _ _ Hf Hfile)|].
    rewrite (compare_file_both _ _ _ _ _ _ _ _ _ Hfile Hfile Hh Hh).
    by rewrite decide_True. }
  split.
  - intros f nd text Hin Hstat Hext.
    assert (f ∈ dom files) as Hdom.
    { apply (find_files_dom _ _ _ Hf). exists nd. split; [done|].
      apply qualifies_joinpath. by eauto. }
    apply (compare_headers_result_for _ _ _ _ Hf Hf _ _ _ Hres).
    + by apply elem_of_union_l.
    + by apply Hmatch.
  - intros r Hin.
    destruct (compare_headers_elem_of _ _ _ _ Hf Hf _ _ Hres Hin)
      as [Hdom Hr].
    rewrite union_idemp_L in Hdom. rewrite (Hmatch _ Hdom) in Hr.
    by injection Hr as <-.
Qed.

Lemma self_comparison_all_match_witness :
  ∃ results,
    compare_headers Sample.dir1 Sample.dir1 = Ok results
    ∧ result_for results "link.csv" (mkResult "link.csv" "match" EmptyString)
    ∧ result_for results "empty.CSV"
        (mkResult "empty.CSV" "match" EmptyString)
    ∧ filename <$> results
      = ["a.csv"; "b.csv"; "c.txt"; "empty.CSV"; "link.csv"].
Proof.
  eexists. split; [reflexivity|].
  destruct (self_comparison_all_match Sample.dir1 _ eq_refl) as [Hall _].
  split; [|split; [|reflexivity]].
  - apply (Hall "link.csv" (Symlink (Some (File ("p, q" +:+ Sample.nl))))
             ("p, q" +:+ Sample.nl)); [|reflexivity|by vm_compute].
    do 6 apply list_elem_of_further. apply list_elem_of_here.
  - apply (Hall "empty.CSV" (File EmptyString) EmptyString);
      [|reflexivity|by vm_compute].
    do 3 apply list_elem_of_further. apply list_elem_of_here.
Defined.

(** * The exit of [main] *)

(** X6. [main] raises [SystemExit] exactly when one of the two paths is
    not a directory, and the message names the first of the two that is
    none: the second path is not looked at when the first is none. *)
Theorem main_exits_iff_not_directory args code :
  main args = Raise (SystemExit code)
  ↔ (is_dir (dir1 args) = false
     ∧ code = "Directory not found: " +:+ path_str (dir1 args))
    ∨ (is_dir (dir1 args) = true ∧ is_dir (dir2 args) = false
       ∧ code = "Directory not found: " +:+ path_str (dir2 args)).
Proof.
  unfold main.
  destruct (is_dir (dir1 args)) eqn:H1; simpl.
  - destruct (is_dir (dir2 args)) eqn:H2; simpl.
    + split; [|by intros [[? _]|(_ & ? & _)]].
      by destruct (compare_headers_ok _ _ _ _
                     (find_files_is_dir _ H1) (find_files_is_dir _ H2))
        as (results & -> & _).
    + split; [intros [= <-]; by auto|].
      by intros [[? _]|(_ & _ & ->)].
  - split; [intros [= <-]; by auto|].
    by intros [[_ ->]|(? & _)].
Qed.

Lemma main_exits_iff_not_directory_witness :
  main (mkArgs Sample.dir1 Sample.no_such_dir Sample.output)
  = Raise (SystemExit "Directory not found: data/gone")
  ∧ main (mkArgs Sample.no_such_dir Sample.no_such_dir Sample.output)
    = Raise (SystemExit "Directory not found: data/gone").
Proof.
  split.
  - apply (main_exits_iff_not_directory
             (mkArgs Sample.dir1 Sample.no_such_dir Sample.output)).
    right. by repeat split.
  - apply (main_exits_iff_not_directory
             (mkArgs Sample.no_such_dir Sample.no_such_dir Sample.output)).
    left. by split.
Defined.

(** * The report read back, row by row *)

(** X9. The report reads back with the csv reader: its first record is
    the header row, and the text after the rows of any number of
    results begins with a record that holds the filename, the status
    and the details of the next result, whatever commas, quotes or line
    terminators they contain, as long as none of the three is longer
    than the field size limit of the reader. *)
Theorem report_reads_back results output :
  Py.reader_next (write_report results output).2
  = Ok (Some ["filename"; "status"; "details"])
  ∧ ∀ pre r post,
      results = pre ++ r :: post →
      Forall within_field_limit (report_row r) →
      ∃ after,
        (write_report results output).2
        = (write_report pre output).2 +:+ after
        ∧ Py.reader_next after = Ok (Some (report_row r)).
Proof.
  split.
  - rewrite write_report_snd. by apply writerow_read_back.
  - intros pre r post -> _. rewrite !write_report_snd.
    exists (Py.writerow (report_row r) +:+ report_rows post). split.
    + by rewrite report_rows_app, append_assoc.
    + apply writerow_read_back, report_row_text_not_nil.
Qed.

Lemma report_reads_back_witness :
  Py.reader_next (write_report Sample3.results Sample.output).2
  = Ok (Some ["filename"; "status"; "details"])
  ∧ ∃ after,
      (write_report Sample3.results Sample.output).2
      = ("filename,status,details" +:+ String "013" Sample.nl
         +:+ "a.csv,match," +:+ String "013" Sample.nl) +:+ after
      ∧ Py.reader_next after
        = Ok (Some ["b, old.csv"; "mismatch";
                    "Dir1 headers missing in Dir2: 'age', 'zip'"]).
Proof.
  destruct (report_reads_back Sample3.results Sample.output) as [Hhead Hrow].
  split; [exact Hhead|].
  apply (Hrow [mkResult "a.csv" "match" EmptyString]
              (mkResult "b, old.csv" "mismatch"
                 "Dir1 headers missing in Dir2: 'age', 'zip'") []);
    [reflexivity|].
  by repeat (apply Forall_cons_2; [by vm_compute|]).
Defined.

(** * The first path that is not a directory *)


